(** * Snowflake database backend for Django: [snowflake/base.py]

    A shallow embedding of [DatabaseWrapper] and [CursorDebugWrapper].
    The backend is glue between the host framework and the driver, so the
    embedding is a state-and-exception monad over the wrapper object, with
    every call that leaves the module (settings lookups, driver calls, the
    debug-logging scope) recorded in a chronological event trace.  The
    driver itself is a parameter: a record of oracles that say, given the
    history so far, what each driver call returns or raises. *)

From Stdlib Require Import ZArith.
From stdpp Require Import base strings gmap list.

Open Scope string_scope.

(** ** Python values and exceptions *)

(** The values a settings entry or a positional argument can hold. *)
Inductive pyval :=
| PyNone
| PyBool (b : bool)
| PyInt (z : Z)
| PyStr (s : string).

(** Python truth value testing, as used by [if settings_dict[...]:]. *)
Definition truthy (v : pyval) : bool :=
  match v with
  | PyNone => false
  | PyBool b => b
  | PyInt z => negb (z =? 0)%Z
  | PyStr s => match s with EmptyString => false | String _ _ => true end
  end.

(** The exception classes that occur in the module.  [Database_Error]
    stands for any instance of the driver's [Database.Error];
    [WrappedDatabaseError] is the host framework's database error. *)
Inductive exc :=
| KeyError (key : string)
| AttributeError (msg : string)
| ImproperlyConfigured (msg : string)
| SynchronousOnlyOperation (msg : string)
| Database_Error (msg : string)
| WrappedDatabaseError (msg : string)
| OtherException (msg : string).

(** [issubclass(type(e), Database.Error)] *)
Definition is_Database_Error (e : exc) : bool :=
  match e with Database_Error _ => true | _ => false end.

Inductive outcome (A : Type) :=
| Ok (a : A)
| Raise (e : exc).
Arguments Ok {A} a.
Arguments Raise {A} e.

(** ** Events, the wrapper object and the driver *)

(** Connections, cursors and file objects are opaque driver objects. *)
Definition handle := nat.

Inductive event :=
| EvGetItem (key : string)                         (* settings_dict[key] *)
| EvConnect (kwargs : gmap string pyval)           (* Database.connect with keyword arguments *)
| EvCursor (conn : handle) (args : list pyval)     (* conn.cursor with positional arguments *)
| EvCursorSetAttr (cur : handle) (attr : string)   (* cur.attr = ... *)
| EvCursorClose (cur : handle)                     (* leaving [with ... as cursor] *)
| EvSetAutocommit (conn : handle) (b : bool)       (* conn.autocommit = b *)
| EvExecute (cur : handle) (sql : string)          (* cur.execute(sql) *)
| EvCopyExpert (cur : handle) (sql : string) (file : handle) (args : list pyval)
| EvCopyTo (cur : handle) (file : handle) (table : string)
           (args : list pyval) (kwargs : list (string * pyval))
| EvDebugEnter (sql : string)                      (* entering debug_sql(sql) *)
| EvDebugExit (sql : string).                      (* leaving debug_sql(sql) *)

(** The driver's connection object with its [autocommit] attribute. *)
Record connection_obj := {
  conn_handle : handle;
  autocommit : bool
}.

(** [self] of [DatabaseWrapper], together with the execution context
    (whether an event loop is running in this thread) and the trace. *)
Record world := {
  settings_dict : gmap string pyval;
  connection : option connection_obj;
  in_event_loop : bool;
  trace : list event
}.

(** The driver ([snowflake.connector], imported as [Database]).  Each
    oracle sees the history so far. *)
Record Driver := {
  Database_connect : list event → gmap string pyval → outcome connection_obj;
  conn_cursor : list event → handle → list pyval → outcome handle;
  conn_set_autocommit : list event → handle → bool → option exc;
  cursor_execute : list event → handle → string → outcome unit;
  cursor_copy_expert :
    list event → handle → string → handle → list pyval → outcome pyval;
  cursor_copy_to :
    list event → handle → handle → string → list pyval →
    list (string * pyval) → outcome pyval
}.

(** ** The monad *)

Definition M (A : Type) : Type := world → outcome A * world.

Definition ret {A} (a : A) : M A := fun w => (Ok a, w).

Definition raise {A} (e : exc) : M A := fun w => (Raise e, w).

Definition bind {A B} (m : M A) (k : A → M B) : M B :=
  fun w =>
    match m w with
    | (Ok a, w') => k a w'
    | (Raise e, w') => (Raise e, w')
    end.

Notation "x <- m ;; k" := (bind m (fun x => k))
  (at level 100, m at next level, right associativity).
Notation "m ;;; k" := (bind m (fun _ => k))
  (at level 100, right associativity).

(** Appending to the trace. *)
Definition log (evs : list event) (w : world) : world :=
  {| settings_dict := settings_dict w;
     connection := connection w;
     in_event_loop := in_event_loop w;
     trace := trace w ++ evs |}.

(** [settings_dict[key]]: subscripting a dict raises [KeyError] on an
    absent key. *)
Definition settings_getitem (key : string) : M pyval :=
  fun w =>
    match settings_dict w !! key with
    | Some v => (Ok v, log [EvGetItem key] w)
    | None => (Raise (KeyError key), log [EvGetItem key] w)
    end.

(** ** [DatabaseWrapper.get_connection_params] *)

Definition get_connection_params : M (gmap string pyval) :=
  let conn_params : gmap string pyval := ∅ in
  c <- settings_getitem "DATABASE" ;;
  conn_params <-
    (if truthy c
     then v <- settings_getitem "DATABASE" ;; ret (<["database" := v]> conn_params)
     else raise (ImproperlyConfigured "Please provide a username for snowflake!")) ;;
  c <- settings_getitem "USER" ;;
  conn_params <-
    (if truthy c
     then v <- settings_getitem "USER" ;; ret (<["user" := v]> conn_params)
     else raise (ImproperlyConfigured "Please provide a username for snowflake!")) ;;
  c <- settings_getitem "PASSWORD" ;;
  conn_params <-
    (if truthy c
     then v <- settings_getitem "PASSWORD" ;; ret (<["password" := v]> conn_params)
     else raise (ImproperlyConfigured "Please provide a password for snowflake!")) ;;
  c <- settings_getitem "ACCOUNT" ;;
  conn_params <-
    (if truthy c
     then v <- settings_getitem "ACCOUNT" ;; ret (<["account" := v]> conn_params)
     else raise (ImproperlyConfigured "Please provide an account for snowflake!")) ;;
  c <- settings_getitem "WAREHOUSE" ;;
  conn_params <-
    (if truthy c
     then v <- settings_getitem "WAREHOUSE" ;; ret (<["warehouse" := v]> conn_params)
     else raise (ImproperlyConfigured "Please provide a warehouse for snowflake!")) ;;
  c <- settings_getitem "ROLE" ;;
  conn_params <-
    (if truthy c
     then v <- settings_getitem "ROLE" ;; ret (<["role" := v]> conn_params)
     else raise (ImproperlyConfigured "Please provide a role for snowflake!")) ;;
  c <- settings_getitem "SCHEMA" ;;
  conn_params <-
    (if truthy c
     then v <- settings_getitem "SCHEMA" ;; ret (<["schema" := v]> conn_params)
     else raise (ImproperlyConfigured "Please provide a schema for snowflake!")) ;;
  ret conn_params.

(** ** Scoped constructs of the host framework and of the driver *)

(** A call into the driver: the oracle answers from the history, and the
    call is appended to the trace whether it returns or raises. *)
Definition call {A} (e : event) (oracle : list event → outcome A) : M A :=
  fun w => (oracle (trace w), log [e] w).

(** [self.connection.<attr>]: attribute access on [None] raises. *)
Definition self_connection (attr : string) : M connection_obj :=
  fun w =>
    match connection w with
    | Some conn => (Ok conn, w)
    | None =>
        (Raise (AttributeError
                  ("'NoneType' object has no attribute '" ++ attr ++ "'")), w)
    end.

(** Modelled from the spec: the host framework's [async_unsafe] decorator,
    which is imported from [django.utils.asyncio] and not part of this
    repository.  The decorated extension points "forbid execution from
    single-threaded cooperative (event-loop-style) contexts": there the call
    fails before the body runs, elsewhere the body runs unchanged. *)
Definition async_unsafe {A} (body : M A) : M A :=
  fun w =>
    if in_event_loop w
    then (Raise (SynchronousOnlyOperation
                   "You cannot call this from an async context - use a thread or sync_to_async."), w)
    else body w.

(** Modelled from the spec: the host framework's [wrap_database_errors]
    context, inherited from [BaseDatabaseWrapper] and not part of this
    repository.  "Any driver-level failure ... is translated into the host
    framework's generic database-error category"; other exceptions and
    normal completion pass through. *)
Definition wrap_database_errors {A} (body : M A) : M A :=
  fun w =>
    match body w with
    | (Raise (Database_Error msg), w') => (Raise (WrappedDatabaseError msg), w')
    | r => r
    end.

(** Modelled from the spec: the [debug_sql] scope of the host framework's
    [BaseCursorDebugWrapper], not part of this repository.  The scope is
    entered, the body runs, and the scope is left on every path; it neither
    alters the body's result nor swallows its exception. *)
Definition debug_sql {A} (sql : string) (body : M A) : M A :=
  fun w =>
    let '(r, w') := body (log [EvDebugEnter sql] w) in
    (r, log [EvDebugExit sql] w').

(** [with <mgr> as cursor: <body>] for a driver cursor: the cursor is its
    own context, and leaving the block closes it without swallowing an
    exception of the body. *)
Definition with_cursor {A} (mgr : M handle) (body : handle → M A) : M A :=
  fun w =>
    match mgr w with
    | (Ok cursor, w1) =>
        let '(r, w2) := body cursor w1 in (r, log [EvCursorClose cursor] w2)
    | (Raise e, w1) => (Raise e, w1)
    end.

(** [try: <body> / except Database.Error: <handler> / else: <orelse>] *)
Definition try_except_Database_Error {A B}
    (body : M A) (handler : M B) (orelse : M B) : M B :=
  fun w =>
    match body w with
    | (Ok _, w') => orelse w'
    | (Raise e, w') => if is_Database_Error e then handler w' else (Raise e, w')
    end.

(** ** The remaining methods of [DatabaseWrapper], and [CursorDebugWrapper] *)

Section Backend.

Context (Database : Driver).

Definition get_new_connection (conn_params : gmap string pyval) : M connection_obj :=
  async_unsafe
    (connection <- call (EvConnect conn_params)
                        (fun h => Database_connect Database h conn_params) ;;
     ret connection).

Definition init_connection_state : M unit := ret tt.

Definition create_cursor (name : option string) : M handle :=
  async_unsafe
    (conn <- self_connection "cursor" ;;
     cursor <- call (EvCursor (conn_handle conn) [])
                    (fun h => conn_cursor Database h (conn_handle conn) []) ;;
     ret cursor).

(** [self.connection.autocommit = b]: the driver may refuse the assignment
    by raising; otherwise the attribute holds the new value. *)
Definition connection_set_autocommit (b : bool) : M unit :=
  conn <- self_connection "autocommit" ;;
  fun w =>
    match conn_set_autocommit Database (trace w) (conn_handle conn) b with
    | Some e => (Raise e, log [EvSetAutocommit (conn_handle conn) b] w)
    | None =>
        (Ok tt,
         {| settings_dict := settings_dict w;
            connection := Some {| conn_handle := conn_handle conn; autocommit := b |};
            in_event_loop := in_event_loop w;
            trace := trace w ++ [EvSetAutocommit (conn_handle conn) b] |})
    end.

(** Reading [self.connection.autocommit]. *)
Definition connection_get_autocommit : M bool :=
  conn <- self_connection "autocommit" ;; ret (autocommit conn).

Definition _set_autocommit (b : bool) : M unit :=
  wrap_database_errors (connection_set_autocommit b).

Definition is_usable : M bool :=
  try_except_Database_Error
    (with_cursor
       (conn <- self_connection "cursor" ;;
        call (EvCursor (conn_handle conn) [])
             (fun h => conn_cursor Database h (conn_handle conn) []))
       (fun cursor =>
          call (EvExecute cursor "SELECT current_version()")
               (fun h => cursor_execute Database h cursor "SELECT current_version()")))
    (ret false)
    (ret true).

(** [CursorDebugWrapper]: [self_cursor] is the wrapped cursor [self.cursor]. *)
Definition copy_expert (self_cursor : handle)
    (sql : string) (file : handle) (args : list pyval) : M pyval :=
  debug_sql sql
    (call (EvCopyExpert self_cursor sql file args)
          (fun h => cursor_copy_expert Database h self_cursor sql file args)).

Definition copy_to (self_cursor : handle)
    (file : handle) (table : string)
    (args : list pyval) (kwargs : list (string * pyval)) : M pyval :=
  debug_sql ("COPY " ++ table ++ " TO STDOUT")
    (call (EvCopyTo self_cursor file table args kwargs)
          (fun h => cursor_copy_to Database h self_cursor file table args kwargs)).

End Backend.

(** ** Vocabulary for stating the properties of [get_connection_params] *)

(** The seven required settings, in the order the source checks them. *)
Inductive field := DATABASE | USER | PASSWORD | ACCOUNT | WAREHOUSE | ROLE | SCHEMA.

Definition required_fields : list field :=
  [DATABASE; USER; PASSWORD; ACCOUNT; WAREHOUSE; ROLE; SCHEMA].

(** The key subscripted in [settings_dict]. *)
Definition setting_key (f : field) : string :=
  match f with
  | DATABASE => "DATABASE" | USER => "USER" | PASSWORD => "PASSWORD"
  | ACCOUNT => "ACCOUNT" | WAREHOUSE => "WAREHOUSE" | ROLE => "ROLE"
  | SCHEMA => "SCHEMA"
  end.

(** The key assigned in [conn_params]. *)
Definition driver_key (f : field) : string :=
  match f with
  | DATABASE => "database" | USER => "user" | PASSWORD => "password"
  | ACCOUNT => "account" | WAREHOUSE => "warehouse" | ROLE => "role"
  | SCHEMA => "schema"
  end.

(** The message in the [else] branch of the field's check, as the source
    has it (lines 127, 132, 137, 142, 147, 152, 157). *)
Definition raised_message (f : field) : string :=
  match f with
  | DATABASE => "Please provide a username for snowflake!"
  | USER => "Please provide a username for snowflake!"
  | PASSWORD => "Please provide a password for snowflake!"
  | ACCOUNT => "Please provide an account for snowflake!"
  | WAREHOUSE => "Please provide a warehouse for snowflake!"
  | ROLE => "Please provide a role for snowflake!"
  | SCHEMA => "Please provide a schema for snowflake!"
  end.

(** The word by which a human-readable message names a field. *)
Definition field_word (f : field) : string :=
  match f with
  | DATABASE => "database" | USER => "username" | PASSWORD => "password"
  | ACCOUNT => "account" | WAREHOUSE => "warehouse" | ROLE => "role"
  | SCHEMA => "schema"
  end.

(** [word in msg] *)
Fixpoint contains (word msg : string) : bool :=
  String.prefix word msg
  || match msg with
     | EmptyString => false
     | String _ rest => contains word rest
     end.

Definition names_field (msg : string) (f : field) : bool :=
  contains (field_word f) msg.

(** Position in the validation order. *)
Definition field_index (f : field) : nat :=
  match f with
  | DATABASE => 0 | USER => 1 | PASSWORD => 2 | ACCOUNT => 3
  | WAREHOUSE => 4 | ROLE => 5 | SCHEMA => 6
  end.

Definition precedes (g f : field) : Prop := field_index g < field_index f.

(** A field is in order when its key is present with a truthy value. *)
Definition in_order (s : gmap string pyval) (f : field) : bool :=
  match s !! setting_key f with
  | Some v => truthy v
  | None => false
  end.

(** Present, but with a falsy value. *)
Definition present_empty (s : gmap string pyval) (f : field) : Prop :=
  ∃ v, s !! setting_key f = Some v ∧ truthy v = false.

(** What the check of a field that is not in order raises. *)
Definition check_error (s : gmap string pyval) (f : field) : exc :=
  match s !! setting_key f with
  | Some _ => ImproperlyConfigured (raised_message f)
  | None => KeyError (setting_key f)
  end.

(** The lookups made by the checks that pass: two per field. *)
Definition lookups (fs : list field) : list event :=
  flat_map (fun f => [EvGetItem (setting_key f); EvGetItem (setting_key f)]) fs.

(** The parameters collected by the checks that pass. *)
Definition collected (s : gmap string pyval) (fs : list field)
    (conn_params : gmap string pyval) : gmap string pyval :=
  fold_left
    (fun acc f =>
       match s !! setting_key f with
       | Some v => <[driver_key f := v]> acc
       | None => acc
       end)
    fs conn_params.

(** The fields whose checks pass before the first one that does not. *)
Fixpoint passed (s : gmap string pyval) (fs : list field) : list field :=
  match fs with
  | [] => []
  | f :: rest => if in_order s f then f :: passed s rest else []
  end.

(** The first field that is not in order, if any. *)
Definition first_failing (s : gmap string pyval) (fs : list field) : option field :=
  find (fun f => negb (in_order s f)) fs.

(** The seven checks as one loop over [required_fields]; the source
    unrolls it. *)
Fixpoint validate (fs : list field) (conn_params : gmap string pyval)
    : M (gmap string pyval) :=
  match fs with
  | [] => ret conn_params
  | f :: rest =>
      c <- settings_getitem (setting_key f) ;;
      conn_params <-
        (if truthy c
         then v <- settings_getitem (setting_key f) ;;
              ret (<[driver_key f := v]> conn_params)
         else raise (ImproperlyConfigured (raised_message f))) ;;
      validate rest conn_params
  end.

(** The fields checked before [f]. *)
Definition fields_before (f : field) : list field :=
  take (field_index f) required_fields.

(** ** Sample configurations and drivers *)

Definition world_of (s : gmap string pyval) : world :=
  {| settings_dict := s; connection := None; in_event_loop := false; trace := [] |}.

Definition settings_of (d u p a wh r sc : pyval) : gmap string pyval :=
  <["DATABASE" := d]> (<["USER" := u]> (<["PASSWORD" := p]> (<["ACCOUNT" := a]>
    (<["WAREHOUSE" := wh]> (<["ROLE" := r]> (<["SCHEMA" := sc]> ∅)))))).

Definition settings_full : gmap string pyval :=
  settings_of (PyStr "D") (PyStr "U") (PyStr "P") (PyStr "A")
              (PyStr "W") (PyStr "R") (PyStr "S").

(** A driver on which every call succeeds. *)
Definition obliging_driver : Driver :=
  {| Database_connect := fun _ _ => Ok {| conn_handle := 1; autocommit := false |};
     conn_cursor := fun _ _ _ => Ok 7;
     conn_set_autocommit := fun _ _ _ => None;
     cursor_execute := fun _ _ _ => Ok tt;
     cursor_copy_expert := fun _ _ _ _ _ => Ok PyNone;
     cursor_copy_to := fun _ _ _ _ _ _ => Ok PyNone |}.

(** A driver whose connection still hands out cursors, but on which every
    statement and every assignment fails. *)
Definition stale_driver : Driver :=
  {| Database_connect := fun _ _ => Raise (Database_Error "could not connect");
     conn_cursor := fun _ _ _ => Ok 7;
     conn_set_autocommit := fun _ _ _ => Some (Database_Error "session expired");
     cursor_execute := fun _ _ _ => Raise (Database_Error "session expired");
     cursor_copy_expert := fun _ _ _ _ _ => Raise (Database_Error "session expired");
     cursor_copy_to := fun _ _ _ _ _ _ => Raise (Database_Error "session expired") |}.

(** A wrapper with a live connection, called outside any event loop. *)
Definition live_world : world :=
  {| settings_dict := settings_full;
     connection := Some {| conn_handle := 1; autocommit := false |};
     in_event_loop := false;
     trace := [] |}.

(** ** The class-level tables of [DatabaseWrapper] *)

Definition data_types : gmap string string :=
  list_to_map
    [("AutoField", "serial");
     ("BigAutoField", "bigserial");
     ("BinaryField", "bytea");
     ("BooleanField", "boolean");
     ("CharField", "varchar(%(max_length)s)");
     ("DateField", "date");
     ("DateTimeField", "timestamp with time zone");
     ("DecimalField", "numeric(%(max_digits)s, %(decimal_places)s)");
     ("DurationField", "interval");
     ("FileField", "varchar(%(max_length)s)");
     ("FilePathField", "varchar(%(max_length)s)");
     ("FloatField", "double precision");
     ("IntegerField", "integer");
     ("BigIntegerField", "bigint");
     ("IPAddressField", "inet");
     ("GenericIPAddressField", "inet");
     ("JSONField", "jsonb");
     ("NullBooleanField", "boolean");
     ("OneToOneField", "integer");
     ("PositiveBigIntegerField", "bigint");
     ("PositiveIntegerField", "integer");
     ("PositiveSmallIntegerField", "smallint");
     ("SlugField", "varchar(%(max_length)s)");
     ("SmallAutoField", "smallserial");
     ("SmallIntegerField", "smallint");
     ("TextField", "text");
     ("TimeField", "time");
     ("UUIDField", "uuid")].

(** The double quote character, and the check ["%(column)s" >= 0]. *)
Definition dquote : string := String (Ascii.ascii_of_nat 34) EmptyString.

Definition column_not_negative : string :=
  dquote ++ "%(column)s" ++ dquote ++ " >= 0".

Definition data_type_check_constraints : gmap string string :=
  list_to_map
    [("PositiveBigIntegerField", column_not_negative);
     ("PositiveIntegerField", column_not_negative);
     ("PositiveSmallIntegerField", column_not_negative)].

Definition operators : gmap string string :=
  list_to_map
    [("exact", "= %s");
     ("iexact", "= UPPER(%s)");
     ("contains", "LIKE %s");
     ("icontains", "LIKE UPPER(%s)");
     ("regex", "~ %s");
     ("iregex", "~* %s");
     ("gt", "> %s");
     ("gte", ">= %s");
     ("lt", "< %s");
     ("lte", "<= %s");
     ("startswith", "LIKE %s");
     ("endswith", "LIKE %s");
     ("istartswith", "LIKE UPPER(%s)");
     ("iendswith", "LIKE UPPER(%s)")].

Definition pattern_ops : gmap string string :=
  list_to_map
    [("contains", "LIKE '%%' || {} || '%%'");
     ("icontains", "LIKE '%%' || UPPER({}) || '%%'");
     ("startswith", "LIKE {} || '%%'");
     ("istartswith", "LIKE UPPER({}) || '%%'");
     ("endswith", "LIKE '%%' || {}");
     ("iendswith", "LIKE '%%' || UPPER({})")].

(** The column types that hold integers. *)
Definition integer_column_type (t : string) : bool :=
  bool_decide (t ∈ ["smallint"; "integer"; "bigint"]).

(** ** Vocabulary for the frame and scope properties *)

(** What an operation that only talks to the outside leaves alone: the
    settings, the connection object and the execution context; the trace
    only grows. *)
Definition wrapper_kept (w w' : world) : Prop :=
  settings_dict w' = settings_dict w
  ∧ connection w' = connection w
  ∧ in_event_loop w' = in_event_loop w
  ∧ trace w `prefix_of` trace w'.

(** Walking a trace with the number of debug scopes currently open: no
    scope is left that was not entered, and none is open at the end. *)
Fixpoint scopes_balanced (depth : nat) (evs : list event) : bool :=
  match evs with
  | [] => bool_decide (depth = 0)
  | EvDebugEnter _ :: rest => scopes_balanced (S depth) rest
  | EvDebugExit _ :: rest =>
      match depth with
      | 0 => false
      | S d => scopes_balanced d rest
      end
  | _ :: rest => scopes_balanced depth rest
  end.

(** The events a call adds to the trace. *)
Definition emitted {A} (m : M A) (w : world) : list event :=
  drop (length (trace w)) (trace (snd (m w))).

(** ** Lemmas *)

Lemma log_log (a b : list event) (w : world) : log b (log a w) = log (a ++ b) w.
Proof. unfold log; simpl. by rewrite <- app_assoc. Qed.

Lemma log_nil (w : world) : log [] w = w.
Proof. destruct w; unfold log; simpl. by rewrite app_nil_r. Qed.

Lemma get_connection_params_unrolled :
  get_connection_params = validate required_fields ∅.
Proof. reflexivity. Qed.

(** The outcome of the loop is decided by the first field that is not in
    order. *)
Lemma validate_spec (fs : list field) :
  ∀ (conn_params : gmap string pyval) (w : world),
    validate fs conn_params w =
    match first_failing (settings_dict w) fs with
    | None =>
        (Ok (collected (settings_dict w) fs conn_params), log (lookups fs) w)
    | Some f =>
        (Raise (check_error (settings_dict w) f),
         log (lookups (passed (settings_dict w) fs)
                ++ [EvGetItem (setting_key f)]) w)
    end.
Proof.
  induction fs as [|f rest IH]; intros conn_params w.
  - simpl. unfold ret. by rewrite log_nil.
  - unfold first_failing in *. cbn [validate find passed].
    unfold bind at 1. unfold settings_getitem at 1.
    unfold in_order at 1 3, check_error.
    destruct (settings_dict w !! setting_key f) as [v|] eqn:Hf;
      [|cbn [negb]; by rewrite Hf].
    destruct (truthy v) eqn:Hv; cbn [negb].
    + unfold bind at 1. unfold bind at 1. unfold settings_getitem at 1.
      cbn [settings_dict log]. rewrite Hf. unfold ret at 1.
      rewrite IH. cbn [settings_dict log].
      destruct (find _ rest) as [g|].
      * by rewrite !log_log.
      * rewrite !log_log. cbn [collected fold_left]. by rewrite Hf.
    + unfold bind at 1. unfold raise. by rewrite Hf.
Qed.

Lemma field_index_inj (f g : field) : field_index f = field_index g → f = g.
Proof. destruct f, g; simpl; intros H; congruence. Qed.

Lemma in_order_present_empty (s : gmap string pyval) (f : field) :
  present_empty s f → in_order s f = false.
Proof. intros (v & Hv & Ht). unfold in_order. by rewrite Hv. Qed.

(** On the seven required fields: the first failing field fails, every
    field before it is in order, and exactly those have passed. *)
Lemma first_failing_required (s : gmap string pyval) :
  match first_failing s required_fields with
  | Some f =>
      in_order s f = false
      ∧ (∀ g, precedes g f → in_order s g = true)
      ∧ passed s required_fields = fields_before f
  | None => ∀ f, in_order s f = true
  end.
Proof.
  unfold first_failing, required_fields. cbn [find passed].
  destruct (in_order s DATABASE) eqn:H0; cbn [negb];
    [destruct (in_order s USER) eqn:H1; cbn [negb];
     [destruct (in_order s PASSWORD) eqn:H2; cbn [negb];
      [destruct (in_order s ACCOUNT) eqn:H3; cbn [negb];
       [destruct (in_order s WAREHOUSE) eqn:H4; cbn [negb];
        [destruct (in_order s ROLE) eqn:H5; cbn [negb];
         [destruct (in_order s SCHEMA) eqn:H6; cbn [negb]| ]| ]| ]| ]| ]| ];
    try (split; [assumption|split; [|reflexivity]];
         intros g Hg; unfold precedes in Hg; destruct g; simpl in Hg;
         first [assumption | lia]).
  intros f; by destruct f.
Qed.

(** If a field is not in order, validation stops at it or before it. *)
Lemma first_failing_at_or_before (s : gmap string pyval) (f : field) :
  in_order s f = false →
  ∃ f0, first_failing s required_fields = Some f0
        ∧ in_order s f0 = false
        ∧ (∀ g, precedes g f0 → in_order s g = true)
        ∧ passed s required_fields = fields_before f0
        ∧ (f0 = f ∨ precedes f0 f).
Proof.
  intros Hf. pose proof (first_failing_required s) as H.
  destruct (first_failing s required_fields) as [f0|].
  - destruct H as (H0 & Hbefore & Hpassed). exists f0.
    repeat split; try assumption.
    destruct (lt_eq_lt_dec (field_index f0) (field_index f)) as [[Hlt|Heq]|Hgt].
    + by right.
    + left. by apply field_index_inj.
    + rewrite (Hbefore f Hgt) in Hf. discriminate.
  - rewrite (H f) in Hf. discriminate.
Qed.

(** The lookups of the settings are the only events of validation. *)
Lemma lookups_only_getitem (fs : list field) (e : event) :
  e ∈ lookups fs → ∃ f, f ∈ fs ∧ e = EvGetItem (setting_key f).
Proof.
  induction fs as [|f rest IH]; cbn [lookups flat_map app].
  - by intros ?%elem_of_nil.
  - intros [->|[->|H]%elem_of_cons]%elem_of_cons.
    + exists f. split; [left|done].
    + exists f. split; [left|done].
    + destruct (IH H) as (g & Hg & ->). exists g. split; [by right|done].
Qed.

Lemma elem_of_fields_before (g f : field) : g ∈ fields_before f → precedes g f.
Proof.
  unfold fields_before, precedes, required_fields.
  destruct f; cbn [field_index take]; intros H;
    repeat (apply elem_of_cons in H as [->|H]; [simpl; lia|]);
    by apply elem_of_nil in H.
Qed.

(** The lookups up to and including the first one of [f] are an initial
    part of the lookups of a full validation. *)
Lemma lookups_before_prefix (f : field) :
  (lookups (fields_before f) ++ [EvGetItem (setting_key f)])%list
    `prefix_of` lookups required_fields.
Proof.
  unfold fields_before, required_fields.
  destruct f; cbn [field_index take lookups flat_map app setting_key];
    eexists; reflexivity.
Qed.

Lemma setting_key_inj (f g : field) : setting_key f = setting_key g → f = g.
Proof. destruct f, g; simpl; intros H; first [reflexivity | discriminate]. Qed.

(** The result of validation, read off [validate_spec]. *)
Lemma get_connection_params_spec (w : world) :
  get_connection_params w =
  match first_failing (settings_dict w) required_fields with
  | None =>
      (Ok (collected (settings_dict w) required_fields ∅),
       log (lookups required_fields) w)
  | Some f =>
      (Raise (check_error (settings_dict w) f),
       log (lookups (passed (settings_dict w) required_fields)
              ++ [EvGetItem (setting_key f)]) w)
  end.
Proof. rewrite get_connection_params_unrolled. apply validate_spec. Qed.

(** A failure of the first action is the failure of the sequence. *)
Lemma bind_raise {A B} (m : M A) (k : A → M B) (w w' : world) (e : exc) :
  m w = (Raise e, w') → bind m k w = (Raise e, w').
Proof. intros H. unfold bind. by rewrite H. Qed.

(** ** Connection parameters *)

(** C1, as stated, fails: with DATABASE absent and USER present but empty,
    validation stops at the lookup of DATABASE with a KeyError, which is not
    the configuration error. *)
Lemma empty_field_after_absent_key :
  let w := world_of (<["USER" := PyStr ""]> ∅) in
  present_empty (settings_dict w) USER
  ∧ fst (get_connection_params w) = Raise (KeyError "DATABASE")
  ∧ ¬ ∃ msg, fst (get_connection_params w) = Raise (ImproperlyConfigured msg).
Proof.
  cbv zeta. split; [|split].
  - exists (PyStr ""). split; reflexivity.
  - reflexivity.
  - intros [msg H]. vm_compute in H. discriminate.
Qed.

(** C1, amended: for every configuration record in which one of the seven
    required fields is present but empty and no field before it in the
    validation order is absent, [get_connection_params] raises
    ImproperlyConfigured, and so does the opening sequence
    [get_connection_params] then [get_new_connection]; the events of either
    contain no call of the driver's connect. *)
Theorem empty_field_refuses_connection
    (Database : Driver) (w : world) (f : field) :
  present_empty (settings_dict w) f →
  (∀ g, precedes g f → is_Some (settings_dict w !! setting_key g)) →
  ∃ msg evs,
    get_connection_params w = (Raise (ImproperlyConfigured msg), log evs w)
    ∧ (conn_params <- get_connection_params ;;
       get_new_connection Database conn_params) w
      = (Raise (ImproperlyConfigured msg), log evs w)
    ∧ ∀ kwargs, EvConnect kwargs ∉ evs.
Proof.
  intros Hf Hpresent.
  destruct (first_failing_at_or_before _ _ (in_order_present_empty _ _ Hf))
    as (f0 & Hfirst & _ & _ & _ & Hpos).
  assert (is_Some (settings_dict w !! setting_key f0)) as [v0 Hv0].
  { destruct Hpos as [->|Hlt]; [|by apply Hpresent].
    destruct Hf as (v & Hv & _). by exists v. }
  pose proof (get_connection_params_spec w) as Hspec.
  rewrite Hfirst in Hspec. unfold check_error in Hspec. rewrite Hv0 in Hspec.
  exists (raised_message f0). eexists. split; [exact Hspec|split].
  - by apply bind_raise.
  - intros kwargs [Hin|Hin%list_elem_of_singleton]%elem_of_app; [|discriminate].
    apply lookups_only_getitem in Hin as (g & _ & Hg). discriminate.
Qed.

Lemma empty_field_refuses_connection_witness :
  ∃ msg evs,
    get_connection_params
      (world_of (settings_of (PyStr "D") (PyStr "") (PyStr "p") (PyStr "a")
                             (PyStr "w") (PyStr "r") (PyStr "s")))
    = (Raise (ImproperlyConfigured msg),
       log evs (world_of (settings_of (PyStr "D") (PyStr "") (PyStr "p") (PyStr "a")
                                      (PyStr "w") (PyStr "r") (PyStr "s"))))
    ∧ (conn_params <- get_connection_params ;;
       get_new_connection obliging_driver conn_params)
        (world_of (settings_of (PyStr "D") (PyStr "") (PyStr "p") (PyStr "a")
                               (PyStr "w") (PyStr "r") (PyStr "s")))
      = (Raise (ImproperlyConfigured msg),
         log evs (world_of (settings_of (PyStr "D") (PyStr "") (PyStr "p") (PyStr "a")
                                        (PyStr "w") (PyStr "r") (PyStr "s"))))
    ∧ ∀ kwargs, EvConnect kwargs ∉ evs.
Proof.
  apply (empty_field_refuses_connection obliging_driver
           (world_of (settings_of (PyStr "D") (PyStr "") (PyStr "p") (PyStr "a")
                                  (PyStr "w") (PyStr "r") (PyStr "s"))) USER).
  - exists (PyStr ""). split; reflexivity.
  - intros g Hg. unfold precedes in Hg.
    destruct g; simpl in Hg; try lia. eexists. reflexivity.
Defined.

(** C2, evaluated on the code: with only DATABASE empty the error raised is
    "Please provide a username for snowflake!".  It is the very error raised
    when only USER is empty, and it does not name the database; the checks of
    the six other fields do name their field. *)
Theorem missing_database_reports_username :
  fst (get_connection_params
         (world_of (settings_of (PyStr "") (PyStr "U") (PyStr "P") (PyStr "A")
                                (PyStr "W") (PyStr "R") (PyStr "S"))))
  = Raise (ImproperlyConfigured "Please provide a username for snowflake!")
  ∧ fst (get_connection_params
           (world_of (settings_of (PyStr "D") (PyStr "") (PyStr "P") (PyStr "A")
                                  (PyStr "W") (PyStr "R") (PyStr "S"))))
    = Raise (ImproperlyConfigured "Please provide a username for snowflake!")
  ∧ names_field "Please provide a username for snowflake!" DATABASE = false
  ∧ raised_message DATABASE = raised_message USER
  ∧ Forall (fun f => names_field (raised_message f) f = true)
           [USER; PASSWORD; ACCOUNT; WAREHOUSE; ROLE; SCHEMA].
Proof.
  repeat split; try reflexivity.
  repeat constructor.
Qed.

(** What [collected] yields when every field is present. *)
Lemma collected_all_present (s : gmap string pyval) :
  (∀ f, is_Some (s !! setting_key f)) →
  dom (collected s required_fields ∅)
    = list_to_set (driver_key <$> required_fields)
  ∧ ∀ f, collected s required_fields ∅ !! driver_key f = s !! setting_key f.
Proof.
  intros Hall.
  destruct (Hall DATABASE) as [d Hd], (Hall USER) as [u Hu],
    (Hall PASSWORD) as [p Hp], (Hall ACCOUNT) as [a Ha],
    (Hall WAREHOUSE) as [wh Hwh], (Hall ROLE) as [r Hr], (Hall SCHEMA) as [sc Hsc].
  unfold collected, required_fields. cbn [fold_left].
  rewrite Hd, Hu, Hp, Ha, Hwh, Hr, Hsc. split.
  - rewrite !dom_insert_L, dom_empty_L. cbn. set_solver.
  - intros f. destruct f; cbn [driver_key];
      repeat (rewrite lookup_insert_ne by discriminate);
      rewrite lookup_insert_eq; symmetry; assumption.
Qed.

(** C3: for every configuration record in which all seven required fields
    are present and non-empty, [get_connection_params] returns a parameter
    set whose keys are exactly database, user, password, account, warehouse,
    role and schema, each mapped to the configured value unchanged; the
    wrapper is left as it was but for the fourteen settings lookups. *)
Theorem get_connection_params_complete (w : world) :
  (∀ f, ∃ v, settings_dict w !! setting_key f = Some v ∧ truthy v = true) →
  ∃ conn_params,
    get_connection_params w = (Ok conn_params, log (lookups required_fields) w)
    ∧ dom conn_params = list_to_set (driver_key <$> required_fields)
    ∧ size conn_params = 7
    ∧ ∀ f, conn_params !! driver_key f = settings_dict w !! setting_key f.
Proof.
  intros Hall.
  assert (∀ f, in_order (settings_dict w) f = true) as Hok.
  { intros f. destruct (Hall f) as (v & Hv & Ht). unfold in_order. by rewrite Hv. }
  assert (first_failing (settings_dict w) required_fields = None) as Hnone.
  { pose proof (first_failing_required (settings_dict w)) as H.
    destruct (first_failing _ _) as [f0|]; [|done].
    destruct H as (H0 & _). rewrite (Hok f0) in H0. discriminate. }
  destruct (collected_all_present (settings_dict w)) as (Hdom & Hlook).
  { intros f. destruct (Hall f) as (v & Hv & _). by exists v. }
  exists (collected (settings_dict w) required_fields ∅).
  split; [|split; [exact Hdom|split; [|exact Hlook]]].
  - rewrite get_connection_params_spec. by rewrite Hnone.
  - rewrite <- size_dom, Hdom. reflexivity.
Qed.

Lemma get_connection_params_complete_witness :
  ∃ conn_params,
    get_connection_params (world_of settings_full)
    = (Ok conn_params, log (lookups required_fields) (world_of settings_full))
    ∧ dom conn_params = list_to_set (driver_key <$> required_fields)
    ∧ size conn_params = 7
    ∧ ∀ f, conn_params !! driver_key f
           = settings_dict (world_of settings_full) !! setting_key f.
Proof.
  apply (get_connection_params_complete (world_of settings_full)).
  intros f. destruct f; eexists; split; reflexivity.
Defined.

(** The spec's example: D, U, P, A, W, R, S resolve to themselves. *)
Example get_connection_params_example :
  fst (get_connection_params (world_of settings_full))
  = Ok (<["schema" := PyStr "S"]> (<["role" := PyStr "R"]>
       (<["warehouse" := PyStr "W"]> (<["account" := PyStr "A"]>
       (<["password" := PyStr "P"]> (<["user" := PyStr "U"]>
       (<["database" := PyStr "D"]> ∅))))))).
Proof. reflexivity. Qed.

(** On the same record the opening sequence does reach the driver: its last
    event is the connect call with the resolved parameters. *)
Example full_settings_reach_connect :
  last (trace (snd ((conn_params <- get_connection_params ;;
                     get_new_connection obliging_driver conn_params)
                      (world_of settings_full))))
  = Some (EvConnect
            (<["schema" := PyStr "S"]> (<["role" := PyStr "R"]>
            (<["warehouse" := PyStr "W"]> (<["account" := PyStr "A"]>
            (<["password" := PyStr "P"]> (<["user" := PyStr "U"]>
            (<["database" := PyStr "D"]> ∅)))))))).
Proof. reflexivity. Qed.

(** C9, as stated, fails: with USER present but empty and PASSWORD absent,
    a required key is absent and yet the error is the configuration error of
    the USER check, not a KeyError. *)
Lemma absent_key_after_empty_field :
  let w := world_of (<["DATABASE" := PyStr "D"]> (<["USER" := PyStr ""]> ∅)) in
  settings_dict w !! setting_key PASSWORD = None
  ∧ fst (get_connection_params w)
    = Raise (ImproperlyConfigured "Please provide a username for snowflake!")
  ∧ ¬ ∃ key, fst (get_connection_params w) = Raise (KeyError key).
Proof.
  cbv zeta. split; [reflexivity|split; [reflexivity|]].
  intros [key H]. vm_compute in H. discriminate.
Qed.

(** C9, amended: if one of the seven required keys is absent from the
    configuration record and every field before it in the validation order
    is present and non-empty, [get_connection_params] fails with the
    KeyError of that key, not with ImproperlyConfigured; and whenever it
    raises ImproperlyConfigured, some field is present with a falsy value
    and the error is the one of that field's check. *)
Theorem absent_key_raises_KeyError (w : world) :
  (∀ f,
     settings_dict w !! setting_key f = None →
     (∀ g, precedes g f → in_order (settings_dict w) g = true) →
     fst (get_connection_params w) = Raise (KeyError (setting_key f)))
  ∧ (∀ msg,
       fst (get_connection_params w) = Raise (ImproperlyConfigured msg) →
       ∃ f, present_empty (settings_dict w) f ∧ msg = raised_message f).
Proof.
  pose proof (get_connection_params_spec w) as Hspec. split.
  - intros f Habsent Hbefore.
    assert (in_order (settings_dict w) f = false) as Hf.
    { unfold in_order. by rewrite Habsent. }
    destruct (first_failing_at_or_before _ _ Hf)
      as (f0 & Hfirst & H0 & _ & _ & Hpos).
    destruct Hpos as [->|Hlt].
    + rewrite Hfirst in Hspec. rewrite Hspec. cbn [fst].
      unfold check_error. by rewrite Habsent.
    + rewrite (Hbefore f0 Hlt) in H0. discriminate.
  - intros msg Hmsg. rewrite Hspec in Hmsg.
    pose proof (first_failing_required (settings_dict w)) as Hreq.
    destruct (first_failing _ _) as [f0|]; [|discriminate].
    destruct Hreq as (H0 & _). cbn [fst] in Hmsg.
    unfold check_error in Hmsg. unfold in_order in H0.
    destruct (settings_dict w !! setting_key f0) as [v|] eqn:Hv; [|discriminate].
    exists f0. split; [by exists v|congruence].
Qed.

Lemma absent_key_raises_KeyError_witness :
  fst (get_connection_params
         (world_of (<["DATABASE" := PyStr "D"]> (<["USER" := PyStr "U"]> ∅))))
  = Raise (KeyError "PASSWORD").
Proof.
  apply (proj1 (absent_key_raises_KeyError
                  (world_of (<["DATABASE" := PyStr "D"]> (<["USER" := PyStr "U"]> ∅))))
               PASSWORD).
  - reflexivity.
  - intros g Hg. unfold precedes in Hg.
    destruct g; simpl in Hg; try lia; reflexivity.
Defined.

(** C10, as stated, fails: with DATABASE absent and USER and PASSWORD both
    empty, USER is the earliest empty field, but the single error raised is
    the KeyError of DATABASE, which reports no empty field. *)
Lemma earliest_empty_not_reported_after_absent_key :
  let w := world_of (<["USER" := PyStr ""]> (<["PASSWORD" := PyStr ""]> ∅)) in
  present_empty (settings_dict w) USER
  ∧ present_empty (settings_dict w) PASSWORD
  ∧ (∀ h, precedes h USER → ¬ present_empty (settings_dict w) h)
  ∧ fst (get_connection_params w) = Raise (KeyError "DATABASE")
  ∧ ¬ ∃ msg, fst (get_connection_params w) = Raise (ImproperlyConfigured msg).
Proof.
  cbv zeta. repeat split.
  - exists (PyStr ""). split; reflexivity.
  - exists (PyStr ""). split; reflexivity.
  - intros h Hh (v & Hv & _). unfold precedes in Hh.
    destruct h; simpl in Hh; try lia. vm_compute in Hv. discriminate.
  - intros [msg H]. vm_compute in H. discriminate.
Qed.

(** C10, amended: [get_connection_params] looks the seven fields up in the
    fixed order DATABASE, USER, PASSWORD, ACCOUNT, WAREHOUSE, ROLE, SCHEMA
    (on every record its lookups are an initial part of that sequence); for
    every configuration record with more than one empty field in which
    no field before the earliest empty one is absent, the single error
    raised is the configuration error of the check of the earliest empty
    field (its message names that field when the field is USER, PASSWORD,
    ACCOUNT, WAREHOUSE, ROLE or SCHEMA), and no field after it is looked
    up. *)
Theorem earliest_empty_field_decides (w : world) :
  (∃ evs, snd (get_connection_params w) = log evs w
          ∧ evs `prefix_of` lookups required_fields)
  ∧ ∀ f,
      present_empty (settings_dict w) f →
      (∃ g, g ≠ f ∧ present_empty (settings_dict w) g) →
      (∀ h, precedes h f → ¬ present_empty (settings_dict w) h) →
      (∀ h, precedes h f → is_Some (settings_dict w !! setting_key h)) →
      let evs := (lookups (fields_before f) ++ [EvGetItem (setting_key f)])%list in
      get_connection_params w
        = (Raise (ImproperlyConfigured (raised_message f)), log evs w)
      ∧ (f ≠ DATABASE → names_field (raised_message f) f = true)
      ∧ (∀ h, precedes f h → EvGetItem (setting_key h) ∉ evs).
Proof.
  split.
  - rewrite get_connection_params_spec.
    pose proof (first_failing_required (settings_dict w)) as Hreq.
    destruct (first_failing _ _) as [f0|]; cbn [snd]; eexists; (split; [done|]).
    + destruct Hreq as (_ & _ & ->). apply lookups_before_prefix.
    + done.
  - intros f Hf _ Hearliest Hpresent evs. subst evs.
    assert (∀ h, precedes h f → in_order (settings_dict w) h = true) as Hbefore.
    { intros h Hh. destruct (Hpresent h Hh) as [v Hv].
      unfold in_order. rewrite Hv.
      destruct (truthy v) eqn:Ht; [done|].
      exfalso. apply (Hearliest h Hh). by exists v. }
    destruct (first_failing_at_or_before _ _ (in_order_present_empty _ _ Hf))
      as (f0 & Hfirst & H0 & _ & Hpassed & Hpos).
    assert (f0 = f) as ->.
    { destruct Hpos as [->|Hlt]; [done|].
      rewrite (Hbefore f0 Hlt) in H0. discriminate. }
    split; [|split].
    + rewrite get_connection_params_spec, Hfirst, Hpassed.
      unfold check_error. destruct Hf as (v & Hv & _). by rewrite Hv.
    + intros Hne. destruct f; first [reflexivity | contradiction].
    + intros h Hh [Hin|Hin%list_elem_of_singleton]%elem_of_app.
      * apply lookups_only_getitem in Hin as (g & Hg & Heq).
        apply elem_of_fields_before in Hg.
        injection Heq as Heq. apply setting_key_inj in Heq as ->.
        unfold precedes in *. lia.
      * injection Hin as Heq. apply setting_key_inj in Heq as ->.
        unfold precedes in Hh. lia.
Qed.

Lemma earliest_empty_field_decides_witness :
  let w := world_of (settings_of (PyStr "D") (PyStr "U") (PyStr "") (PyStr "a")
                                 (PyStr "") (PyStr "r") (PyStr "s")) in
  let evs := (lookups (fields_before PASSWORD) ++ [EvGetItem (setting_key PASSWORD)])%list in
  get_connection_params w
    = (Raise (ImproperlyConfigured (raised_message PASSWORD)), log evs w)
  ∧ (PASSWORD ≠ DATABASE → names_field (raised_message PASSWORD) PASSWORD = true)
  ∧ (∀ h, precedes PASSWORD h → EvGetItem (setting_key h) ∉ evs).
Proof.
  apply (proj2 (earliest_empty_field_decides
                  (world_of (settings_of (PyStr "D") (PyStr "U") (PyStr "") (PyStr "a")
                                         (PyStr "") (PyStr "r") (PyStr "s"))))
               PASSWORD).
  - exists (PyStr ""). split; reflexivity.
  - exists WAREHOUSE. split; [discriminate|].
    exists (PyStr ""). split; reflexivity.
  - intros h Hh (v & Hv & Ht). unfold precedes in Hh.
    destruct h; simpl in Hh; try lia;
      vm_compute in Hv; injection Hv as <-; discriminate.
  - intros h Hh. unfold precedes in Hh.
    destruct h; simpl in Hh; try lia; eexists; reflexivity.
Defined.

(** ** Cursor, autocommit and liveness *)

(** C8: for every value of [name], [create_cursor] does what it does for no
    name at all; called outside an event loop on a live connection, it
    returns what the connection's [cursor()] returns for an empty argument
    list, and that call is its only event: the name is not passed on and no
    attribute of the cursor is set. *)
Theorem create_cursor_ignores_name
    (Database : Driver) (name : option string) (w : world) :
  create_cursor Database name w = create_cursor Database None w
  ∧ ∀ conn,
      in_event_loop w = false →
      connection w = Some conn →
      create_cursor Database name w
      = (conn_cursor Database (trace w) (conn_handle conn) [],
         log [EvCursor (conn_handle conn) []] w).
Proof.
  split; [reflexivity|].
  intros conn Hloop Hconn.
  unfold create_cursor, async_unsafe. rewrite Hloop.
  unfold bind, self_connection, call, ret. rewrite Hconn.
  by destruct (conn_cursor Database (trace w) (conn_handle conn) []).
Qed.

Lemma create_cursor_ignores_name_witness :
  create_cursor obliging_driver (Some "_django_curs_1_sync_1") live_world
  = (Ok 7, log [EvCursor 1 []] live_world).
Proof.
  apply (proj2 (create_cursor_ignores_name
                  obliging_driver (Some "_django_curs_1_sync_1") live_world)
               {| conn_handle := 1; autocommit := false |});
    reflexivity.
Defined.

(** No driver error leaves [wrap_database_errors] as such. *)
Lemma wrap_database_errors_no_driver_error {A} (body : M A) (w : world) (msg : string) :
  fst (wrap_database_errors body w) ≠ Raise (Database_Error msg).
Proof.
  unfold wrap_database_errors.
  destruct (body w) as [[a|e] w']; [discriminate|].
  destruct e; discriminate.
Qed.

(** C5: if the driver raises an error while [_set_autocommit] assigns the
    connection's autocommit flag, [_set_autocommit] raises the host
    framework's database error carrying the same message, and under no
    circumstances does a driver error leave [_set_autocommit]. *)
Theorem set_autocommit_wraps_driver_error
    (Database : Driver) (w : world) (conn : connection_obj) (b : bool) (msg : string) :
  connection w = Some conn →
  conn_set_autocommit Database (trace w) (conn_handle conn) b
    = Some (Database_Error msg) →
  _set_autocommit Database b w
    = (Raise (WrappedDatabaseError msg),
       log [EvSetAutocommit (conn_handle conn) b] w)
  ∧ ∀ msg', fst (_set_autocommit Database b w) ≠ Raise (Database_Error msg').
Proof.
  intros Hconn Hraise. split.
  - unfold _set_autocommit, wrap_database_errors, connection_set_autocommit.
    unfold bind, self_connection. by rewrite Hconn, Hraise.
  - intros msg'. apply wrap_database_errors_no_driver_error.
Qed.

Lemma set_autocommit_wraps_driver_error_witness :
  _set_autocommit stale_driver true live_world
    = (Raise (WrappedDatabaseError "session expired"),
       log [EvSetAutocommit 1 true] live_world)
  ∧ ∀ msg', fst (_set_autocommit stale_driver true live_world)
            ≠ Raise (Database_Error msg').
Proof.
  apply (set_autocommit_wraps_driver_error
           stale_driver live_world {| conn_handle := 1; autocommit := false |}
           true "session expired");
    reflexivity.
Defined.

(** C6: for every boolean [b], when the driver raises no error during the
    assignment, [_set_autocommit b] returns normally and reading the
    connection's autocommit attribute right after it yields [b]. *)
Theorem set_autocommit_roundtrip
    (Database : Driver) (w : world) (conn : connection_obj) (b : bool) :
  connection w = Some conn →
  conn_set_autocommit Database (trace w) (conn_handle conn) b = None →
  fst (_set_autocommit Database b w) = Ok tt
  ∧ fst ((_set_autocommit Database b ;;; connection_get_autocommit) w) = Ok b.
Proof.
  intros Hconn Hok.
  unfold _set_autocommit, wrap_database_errors, connection_set_autocommit,
    connection_get_autocommit.
  unfold bind, self_connection, ret. rewrite Hconn, Hok. cbn. done.
Qed.

Lemma set_autocommit_roundtrip_witness :
  (fst (_set_autocommit obliging_driver true live_world) = Ok tt
   ∧ fst ((_set_autocommit obliging_driver true ;;; connection_get_autocommit)
            live_world) = Ok true)
  ∧ (fst (_set_autocommit obliging_driver false live_world) = Ok tt
     ∧ fst ((_set_autocommit obliging_driver false ;;; connection_get_autocommit)
              live_world) = Ok false).
Proof.
  split.
  - apply (set_autocommit_roundtrip
             obliging_driver live_world {| conn_handle := 1; autocommit := false |} true);
      reflexivity.
  - apply (set_autocommit_roundtrip
             obliging_driver live_world {| conn_handle := 1; autocommit := false |} false);
      reflexivity.
Defined.

(** C4: on a live connection that hands out a cursor, [is_usable] opens the
    cursor on the connection itself, executes the single statement
    'SELECT current_version()' on it and leaves the cursor; it returns true
    if the statement succeeds and false if it raises a driver error.  On
    every wrapper and driver, no driver error leaves [is_usable]. *)
Theorem is_usable_probe (Database : Driver) (w : world) :
  (∀ conn cursor,
     connection w = Some conn →
     conn_cursor Database (trace w) (conn_handle conn) [] = Ok cursor →
     let probe :=
       cursor_execute Database (trace w ++ [EvCursor (conn_handle conn) []])
                      cursor "SELECT current_version()" in
     let w' :=
       log [EvCursor (conn_handle conn) [];
            EvExecute cursor "SELECT current_version()";
            EvCursorClose cursor] w in
     (probe = Ok tt → is_usable Database w = (Ok true, w'))
     ∧ (∀ msg, probe = Raise (Database_Error msg) →
               is_usable Database w = (Ok false, w')))
  ∧ ∀ msg, fst (is_usable Database w) ≠ Raise (Database_Error msg).
Proof.
  split.
  - intros conn cursor Hconn Hcursor probe w'. subst probe w'.
    unfold is_usable, try_except_Database_Error, with_cursor.
    unfold bind, self_connection, call, ret. rewrite Hconn, Hcursor.
    cbn [trace log].
    split; [intros ->|intros msg ->]; cbn [is_Database_Error];
      by rewrite !log_log.
  - intros msg. unfold is_usable, try_except_Database_Error.
    match goal with |- context [with_cursor ?m ?b w] =>
      destruct (with_cursor m b w) as [[a|e] w1] end.
    + discriminate.
    + destruct e; cbn [is_Database_Error ret fst]; discriminate.
Qed.

Lemma is_usable_probe_witness :
  is_usable obliging_driver live_world
    = (Ok true,
       log [EvCursor 1 []; EvExecute 7 "SELECT current_version()"; EvCursorClose 7]
           live_world)
  ∧ is_usable stale_driver live_world
    = (Ok false,
       log [EvCursor 1 []; EvExecute 7 "SELECT current_version()"; EvCursorClose 7]
           live_world).
Proof.
  split.
  - apply (proj1 (is_usable_probe obliging_driver live_world)
                 {| conn_handle := 1; autocommit := false |} 7);
      reflexivity.
  - apply (proj2 (proj1 (is_usable_probe stale_driver live_world)
                        {| conn_handle := 1; autocommit := false |} 7
                        eq_refl eq_refl)
                 "session expired").
    reflexivity.
Defined.

(** ** The debug cursor wrapper *)

(** C7: for every cursor, SQL, file, table and extra arguments and in every
    state, [copy_expert] and [copy_to] call the wrapped cursor's operation
    of the same name once, with the arguments as given, and their outcome is
    the outcome of that call, returned or raised; the debug scope, carrying
    the SQL for [copy_expert] and 'COPY <table> TO STDOUT' for [copy_to], is
    entered before the call and left once after it on either path. *)
Theorem debug_wrapper_forwards (Database : Driver) (self_cursor : handle) (w : world) :
  (∀ sql file args,
     copy_expert Database self_cursor sql file args w
     = (cursor_copy_expert Database (trace w ++ [EvDebugEnter sql])
                           self_cursor sql file args,
        log [EvDebugEnter sql;
             EvCopyExpert self_cursor sql file args;
             EvDebugExit sql] w))
  ∧ (∀ file table args kwargs,
       copy_to Database self_cursor file table args kwargs w
       = (cursor_copy_to Database
                         (trace w ++ [EvDebugEnter ("COPY " ++ table ++ " TO STDOUT")])
                         self_cursor file table args kwargs,
          log [EvDebugEnter ("COPY " ++ table ++ " TO STDOUT");
               EvCopyTo self_cursor file table args kwargs;
               EvDebugExit ("COPY " ++ table ++ " TO STDOUT")] w)).
Proof.
  split; intros;
    [unfold copy_expert|unfold copy_to];
    unfold debug_sql, call; cbn [trace log]; by rewrite !log_log.
Qed.

(** The description sent to the debug scope by [copy_to]. *)
Example copy_to_description :
  trace (snd (copy_to stale_driver 7 3 "events" [PyStr ","] [] live_world))
  = [EvDebugEnter "COPY events TO STDOUT";
     EvCopyTo 7 3 "events" [PyStr ","] [];
     EvDebugExit "COPY events TO STDOUT"].
Proof. reflexivity. Qed.

(** ** Further properties of [get_connection_params] *)

(** Whether validation stops, and where, is decided by which fields are in
    order. *)
Lemma first_failing_ext (s1 s2 : gmap string pyval) (fs : list field) :
  (∀ f, f ∈ fs → in_order s1 f = in_order s2 f) →
  first_failing s1 fs = first_failing s2 fs.
Proof.
  unfold first_failing. induction fs as [|f rest IH]; intros Hext; [done|].
  cbn [find]. rewrite <- (Hext f) by left.
  destruct (in_order s1 f); cbn [negb]; [|done].
  apply IH. intros g Hg. apply Hext. by right.
Qed.

Lemma collected_ext (s1 s2 : gmap string pyval) (fs : list field) :
  (∀ f, f ∈ fs → s1 !! setting_key f = s2 !! setting_key f) →
  ∀ conn_params, collected s1 fs conn_params = collected s2 fs conn_params.
Proof.
  unfold collected. induction fs as [|f rest IH]; intros Hext conn_params; [done|].
  cbn [fold_left]. rewrite <- (Hext f) by left.
  apply IH. intros g Hg. apply Hext. by right.
Qed.

(** A field that fails while all fields before it are in order is the
    first failing one. *)
Lemma first_failing_unique (s : gmap string pyval) (f : field) :
  in_order s f = false →
  (∀ g, precedes g f → in_order s g = true) →
  first_failing s required_fields = Some f.
Proof.
  intros Hf Hbefore.
  destruct (first_failing_at_or_before s f Hf) as (f0 & Hfirst & H0 & _ & _ & Hpos).
  destruct Hpos as [->|Hlt]; [done|].
  rewrite (Hbefore f0 Hlt) in H0. discriminate.
Qed.

(** X1: on every configuration record [get_connection_params] ends in one
    of three ways: it returns the parameters, it raises the KeyError of one
    of the seven required keys, or it raises ImproperlyConfigured with the
    message of one of the seven checks.  Nothing else is raised. *)
Theorem get_connection_params_outcomes (w : world) :
  (∃ conn_params, fst (get_connection_params w) = Ok conn_params)
  ∨ (∃ f, settings_dict w !! setting_key f = None
          ∧ fst (get_connection_params w) = Raise (KeyError (setting_key f)))
  ∨ (∃ f, present_empty (settings_dict w) f
          ∧ fst (get_connection_params w)
            = Raise (ImproperlyConfigured (raised_message f))).
Proof.
  rewrite get_connection_params_spec.
  pose proof (first_failing_required (settings_dict w)) as Hreq.
  destruct (first_failing _ _) as [f0|]; cbn [fst]; [|left; by eexists].
  destruct Hreq as (H0 & _). right. unfold check_error. unfold in_order in H0.
  destruct (settings_dict w !! setting_key f0) as [v|] eqn:Hv.
  - right. exists f0. split; [by exists v|done].
  - left. by exists f0.
Qed.

(** X2: [get_connection_params] returns parameters exactly when each of the
    seven required fields is present with a truthy value; a single absent
    or falsy field makes it raise. *)
Theorem get_connection_params_succeeds_iff (w : world) :
  (∃ conn_params, fst (get_connection_params w) = Ok conn_params)
  ↔ ∀ f, in_order (settings_dict w) f = true.
Proof.
  rewrite get_connection_params_spec.
  pose proof (first_failing_required (settings_dict w)) as Hreq.
  destruct (first_failing _ _) as [f0|]; cbn [fst]; split.
  - intros [p Hp]. discriminate.
  - intros Hall. destruct Hreq as (H0 & _). rewrite (Hall f0) in H0. discriminate.
  - intros _. exact Hreq.
  - intros _. by eexists.
Qed.

(** X3: the outcome of [get_connection_params] depends on the seven
    required settings only: two configuration records that agree on them
    resolve to the same parameters or raise the same error, whatever other
    entries (NAME, HOST, PORT, OPTIONS, ...) they hold. *)
Theorem get_connection_params_ignores_other_settings (w1 w2 : world) :
  (∀ f, settings_dict w1 !! setting_key f = settings_dict w2 !! setting_key f) →
  fst (get_connection_params w1) = fst (get_connection_params w2).
Proof.
  intros Hagree. rewrite !get_connection_params_spec.
  rewrite (first_failing_ext (settings_dict w1) (settings_dict w2)).
  2:{ intros f _. unfold in_order. by rewrite Hagree. }
  destruct (first_failing (settings_dict w2) required_fields) as [f0|]; cbn [fst].
  - unfold check_error. by rewrite Hagree.
  - f_equal. apply collected_ext. intros f _. apply Hagree.
Qed.

Lemma get_connection_params_ignores_other_settings_witness :
  fst (get_connection_params (world_of settings_full))
  = fst (get_connection_params
           (world_of (<["HOST" := PyStr "example.org"]>
                        (<["PORT" := PyInt 443]> settings_full)))).
Proof.
  apply (get_connection_params_ignores_other_settings
           (world_of settings_full)
           (world_of (<["HOST" := PyStr "example.org"]>
                        (<["PORT" := PyInt 443]> settings_full)))).
  intros f. destruct f; reflexivity.
Defined.

(** X4: when a field is absent or falsy, the outcome of
    [get_connection_params] depends on that field and the fields before it
    only: changing, adding or removing any later field changes neither the
    error raised nor the lookups made. *)
Theorem get_connection_params_ignores_later_fields (w1 w2 : world) (f : field) :
  in_order (settings_dict w1) f = false →
  (∀ g, g = f ∨ precedes g f →
        settings_dict w1 !! setting_key g = settings_dict w2 !! setting_key g) →
  fst (get_connection_params w1) = fst (get_connection_params w2)
  ∧ emitted get_connection_params w1 = emitted get_connection_params w2.
Proof.
  intros Hf Hagree.
  destruct (first_failing_at_or_before _ _ Hf)
    as (f0 & Hfirst & H0 & Hbefore & Hpassed & Hpos).
  assert (∀ g, g = f0 ∨ precedes g f0 →
               settings_dict w1 !! setting_key g = settings_dict w2 !! setting_key g)
    as Hagree0.
  { intros g Hg. apply Hagree. unfold precedes in *.
    destruct Hpos as [->|Hlt]; [done|]. right. destruct Hg as [->|Hg]; lia. }
  assert (first_failing (settings_dict w2) required_fields = Some f0) as Hfirst2.
  { apply first_failing_unique.
    - unfold in_order in *. rewrite <- Hagree0 by by left. done.
    - intros g Hg. rewrite <- (Hbefore g Hg). unfold in_order.
      rewrite <- Hagree0 by by right. done. }
  pose proof (first_failing_required (settings_dict w2)) as Hreq2.
  rewrite Hfirst2 in Hreq2. destruct Hreq2 as (_ & _ & Hpassed2).
  unfold emitted. rewrite !get_connection_params_spec, Hfirst, Hfirst2.
  rewrite Hpassed, Hpassed2. cbn [fst snd log trace]. split.
  - unfold check_error. rewrite <- Hagree0 by by left. done.
  - by rewrite !drop_app_length.
Qed.

Lemma get_connection_params_ignores_later_fields_witness :
  fst (get_connection_params
         (world_of (settings_of (PyStr "D") (PyStr "") (PyStr "p") (PyStr "a")
                                (PyStr "w") (PyStr "r") (PyStr "s"))))
  = fst (get_connection_params
           (world_of (<["DATABASE" := PyStr "D"]> (<["USER" := PyStr ""]> ∅))))
  ∧ emitted get_connection_params
      (world_of (settings_of (PyStr "D") (PyStr "") (PyStr "p") (PyStr "a")
                             (PyStr "w") (PyStr "r") (PyStr "s")))
    = emitted get_connection_params
        (world_of (<["DATABASE" := PyStr "D"]> (<["USER" := PyStr ""]> ∅))).
Proof.
  apply (get_connection_params_ignores_later_fields
           (world_of (settings_of (PyStr "D") (PyStr "") (PyStr "p") (PyStr "a")
                                  (PyStr "w") (PyStr "r") (PyStr "s")))
           (world_of (<["DATABASE" := PyStr "D"]> (<["USER" := PyStr ""]> ∅)))
           USER).
  - reflexivity.
  - intros g [->|Hg]; [reflexivity|].
    unfold precedes in Hg. destruct g; simpl in Hg; try lia; reflexivity.
Defined.

Lemma get_connection_params_succeeds_iff_witness :
  ∃ conn_params, fst (get_connection_params (world_of settings_full)) = Ok conn_params.
Proof.
  apply (proj2 (get_connection_params_succeeds_iff (world_of settings_full))).
  intros f. destruct f; reflexivity.
Defined.

(** ** Further properties of the connection, cursor and liveness methods *)

Lemma emitted_log {A} (m : M A) (w : world) (evs : list event) :
  snd (m w) = log evs w → emitted m w = evs.
Proof. intros H. unfold emitted. rewrite H. cbn [log trace]. apply drop_app_length. Qed.

Lemma wrapper_kept_log (evs : list event) (w : world) : wrapper_kept w (log evs w).
Proof. unfold wrapper_kept, log; cbn. repeat split. by exists evs. Qed.

(** X5: outside an event loop [get_new_connection] calls the driver's
    connect once, with the parameters it was given, and returns or raises
    exactly what that call does: a driver error is not wrapped and no second
    attempt is made, and the wrapper's own connection is not assigned.  In a
    running event loop it raises SynchronousOnlyOperation and the driver is
    not called. *)
Theorem get_new_connection_single_attempt
    (Database : Driver) (conn_params : gmap string pyval) (w : world) :
  (in_event_loop w = false →
   get_new_connection Database conn_params w
   = (Database_connect Database (trace w) conn_params,
      log [EvConnect conn_params] w))
  ∧ (in_event_loop w = true →
     ∃ msg, get_new_connection Database conn_params w
            = (Raise (SynchronousOnlyOperation msg), w)).
Proof.
  unfold get_new_connection, async_unsafe. split; intros ->.
  - unfold bind, call, ret.
    by destruct (Database_connect Database (trace w) conn_params).
  - by eexists.
Qed.

Lemma get_new_connection_single_attempt_witness :
  get_new_connection stale_driver settings_full (world_of settings_full)
  = (Raise (Database_Error "could not connect"),
     log [EvConnect settings_full] (world_of settings_full)).
Proof.
  apply (proj1 (get_new_connection_single_attempt
                  stale_driver settings_full (world_of settings_full))).
  reflexivity.
Defined.

(** X6: for every configuration record with all seven fields present and
    truthy, opened outside an event loop, the sequence
    [get_connection_params] then [get_new_connection] makes the fourteen
    settings lookups and then one connect call whose keyword arguments are
    exactly database, user, password, account, warehouse, role and schema
    with the configured values; its outcome is the outcome of that call. *)
Theorem open_sequence_connects_with_settings (Database : Driver) (w : world) :
  (∀ f, in_order (settings_dict w) f = true) →
  in_event_loop w = false →
  ∃ conn_params,
    (conn_params <- get_connection_params ;;
     get_new_connection Database conn_params) w
    = (Database_connect Database (trace w ++ lookups required_fields) conn_params,
       log (lookups required_fields ++ [EvConnect conn_params]) w)
    ∧ dom conn_params = list_to_set (driver_key <$> required_fields)
    ∧ ∀ f, conn_params !! driver_key f = settings_dict w !! setting_key f.
Proof.
  intros Hall Hloop.
  pose proof (get_connection_params_spec w) as Hspec.
  pose proof (first_failing_required (settings_dict w)) as Hreq.
  destruct (first_failing _ _) as [f0|].
  { destruct Hreq as (H0 & _). rewrite (Hall f0) in H0. discriminate. }
  destruct (collected_all_present (settings_dict w)) as (Hdom & Hlook).
  { intros f. specialize (Hall f). unfold in_order in Hall.
    by destruct (settings_dict w !! setting_key f). }
  exists (collected (settings_dict w) required_fields ∅).
  split; [|by split].
  unfold bind at 1. rewrite Hspec.
  unfold get_new_connection, async_unsafe. cbn [in_event_loop log]. rewrite Hloop.
  unfold bind, call, ret. cbn [trace log]. rewrite log_log.
  by destruct (Database_connect _ _ _).
Qed.

Lemma open_sequence_connects_with_settings_witness :
  ∃ conn_params,
    (conn_params <- get_connection_params ;;
     get_new_connection obliging_driver conn_params) (world_of settings_full)
    = (Database_connect obliging_driver
         (trace (world_of settings_full) ++ lookups required_fields) conn_params,
       log (lookups required_fields ++ [EvConnect conn_params])
           (world_of settings_full))
    ∧ dom conn_params = list_to_set (driver_key <$> required_fields)
    ∧ ∀ f, conn_params !! driver_key f
           = settings_dict (world_of settings_full) !! setting_key f.
Proof.
  apply (open_sequence_connects_with_settings obliging_driver (world_of settings_full)).
  - intros f. destruct f; reflexivity.
  - reflexivity.
Defined.

(** X7: in a running event loop [create_cursor] raises
    SynchronousOnlyOperation, whatever the name and whether or not there is
    a connection; outside one, with no connection ([self.connection] is
    None), it raises AttributeError.  In both cases the driver is not called
    and the wrapper is left as it was. *)
Theorem create_cursor_refusals (Database : Driver) (name : option string) (w : world) :
  (in_event_loop w = true →
   ∃ msg, create_cursor Database name w = (Raise (SynchronousOnlyOperation msg), w))
  ∧ (in_event_loop w = false → connection w = None →
     ∃ msg, create_cursor Database name w = (Raise (AttributeError msg), w)).
Proof.
  unfold create_cursor, async_unsafe. split.
  - intros ->. by eexists.
  - intros -> Hnone. unfold bind, self_connection. rewrite Hnone. by eexists.
Qed.

Lemma create_cursor_refusals_witness :
  (∃ msg, create_cursor obliging_driver None
            {| settings_dict := settings_full;
               connection := Some {| conn_handle := 1; autocommit := false |};
               in_event_loop := true; trace := [] |}
          = (Raise (SynchronousOnlyOperation msg),
             {| settings_dict := settings_full;
                connection := Some {| conn_handle := 1; autocommit := false |};
                in_event_loop := true; trace := [] |}))
  ∧ (∃ msg, create_cursor obliging_driver None (world_of settings_full)
            = (Raise (AttributeError msg), world_of settings_full)).
Proof.
  split.
  - apply (proj1 (create_cursor_refusals obliging_driver None
                    {| settings_dict := settings_full;
                       connection := Some {| conn_handle := 1; autocommit := false |};
                       in_event_loop := true; trace := [] |})).
    reflexivity.
  - apply (proj2 (create_cursor_refusals obliging_driver None (world_of settings_full)));
      reflexivity.
Defined.

(** X8: when the driver accepts both assignments, [_set_autocommit b1]
    followed by [_set_autocommit b2] leaves the connection's autocommit
    attribute at [b2] (the last write wins, also when [b1 = b2]), on the
    same connection object, with one assignment event each. *)
Theorem set_autocommit_last_write_wins
    (Database : Driver) (w : world) (conn : connection_obj) (b1 b2 : bool) :
  connection w = Some conn →
  conn_set_autocommit Database (trace w) (conn_handle conn) b1 = None →
  conn_set_autocommit Database
    (trace w ++ [EvSetAutocommit (conn_handle conn) b1]) (conn_handle conn) b2 = None →
  fst ((_set_autocommit Database b1 ;;; _set_autocommit Database b2 ;;;
        connection_get_autocommit) w) = Ok b2
  ∧ connection (snd ((_set_autocommit Database b1 ;;; _set_autocommit Database b2) w))
    = Some {| conn_handle := conn_handle conn; autocommit := b2 |}
  ∧ emitted (_set_autocommit Database b1 ;;; _set_autocommit Database b2) w
    = [EvSetAutocommit (conn_handle conn) b1; EvSetAutocommit (conn_handle conn) b2].
Proof.
  intros Hconn H1 H2.
  unfold emitted, _set_autocommit, wrap_database_errors, connection_set_autocommit,
    connection_get_autocommit.
  unfold bind, self_connection, ret. rewrite Hconn, H1. cbn. rewrite H2. cbn.
  repeat split. rewrite <- app_assoc. apply drop_app_length.
Qed.

Lemma set_autocommit_last_write_wins_witness :
  fst ((_set_autocommit obliging_driver true ;;; _set_autocommit obliging_driver false ;;;
        connection_get_autocommit) live_world) = Ok false
  ∧ connection (snd ((_set_autocommit obliging_driver true ;;;
                      _set_autocommit obliging_driver false) live_world))
    = Some {| conn_handle := 1; autocommit := false |}
  ∧ emitted (_set_autocommit obliging_driver true ;;;
             _set_autocommit obliging_driver false) live_world
    = [EvSetAutocommit 1 true; EvSetAutocommit 1 false].
Proof.
  apply (set_autocommit_last_write_wins
           obliging_driver live_world {| conn_handle := 1; autocommit := false |}
           true false);
    reflexivity.
Defined.

(** X9: with no connection ([self.connection] is None) [_set_autocommit]
    and [is_usable] raise AttributeError without calling the driver: the
    error of [_set_autocommit] is not turned into a database error, and
    [is_usable] raises instead of answering false. *)
Theorem no_connection_raises_AttributeError (Database : Driver) (w : world) :
  connection w = None →
  (∀ b, ∃ msg, _set_autocommit Database b w = (Raise (AttributeError msg), w))
  ∧ ∃ msg, is_usable Database w = (Raise (AttributeError msg), w).
Proof.
  intros Hnone. split; [intros b|].
  - unfold _set_autocommit, wrap_database_errors, connection_set_autocommit.
    unfold bind, self_connection. rewrite Hnone. by eexists.
  - unfold is_usable, try_except_Database_Error, with_cursor.
    unfold bind, self_connection. rewrite Hnone. by eexists.
Qed.

Lemma no_connection_raises_AttributeError_witness :
  (∀ b, ∃ msg, _set_autocommit obliging_driver b (world_of settings_full)
               = (Raise (AttributeError msg), world_of settings_full))
  ∧ ∃ msg, is_usable obliging_driver (world_of settings_full)
           = (Raise (AttributeError msg), world_of settings_full).
Proof.
  apply (no_connection_raises_AttributeError obliging_driver (world_of settings_full)).
  reflexivity.
Defined.

(** The paths through [is_usable]. *)
Lemma is_usable_cases (Database : Driver) (w : world) :
  match connection w with
  | None => ∃ msg, is_usable Database w = (Raise (AttributeError msg), w)
  | Some conn =>
      match conn_cursor Database (trace w) (conn_handle conn) [] with
      | Raise e =>
          is_usable Database w
          = (if is_Database_Error e then Ok false else Raise e,
             log [EvCursor (conn_handle conn) []] w)
      | Ok cursor =>
          is_usable Database w
          = (match cursor_execute Database
                     (trace w ++ [EvCursor (conn_handle conn) []])
                     cursor "SELECT current_version()" with
             | Ok _ => Ok true
             | Raise e => if is_Database_Error e then Ok false else Raise e
             end,
             log [EvCursor (conn_handle conn) [];
                  EvExecute cursor "SELECT current_version()";
                  EvCursorClose cursor] w)
      end
  end.
Proof.
  unfold is_usable, try_except_Database_Error, with_cursor.
  unfold bind, self_connection, call, ret.
  destruct (connection w) as [conn|]; [|by eexists].
  destruct (conn_cursor Database (trace w) (conn_handle conn) []) as [cursor|e].
  - cbn [trace log].
    destruct (cursor_execute _ _ _ _) as [[]|e]; rewrite !log_log; cbn [app];
      [done|by destruct (is_Database_Error e)].
  - by destruct (is_Database_Error e).
Qed.

(** X10: [is_usable] answers true exactly when there is a connection, the
    connection hands out a cursor and the version statement executes on it
    without raising; in every other case it answers false or raises. *)
Theorem is_usable_true_iff (Database : Driver) (w : world) :
  fst (is_usable Database w) = Ok true
  ↔ ∃ conn cursor,
      connection w = Some conn
      ∧ conn_cursor Database (trace w) (conn_handle conn) [] = Ok cursor
      ∧ cursor_execute Database (trace w ++ [EvCursor (conn_handle conn) []])
                       cursor "SELECT current_version()" = Ok tt.
Proof.
  pose proof (is_usable_cases Database w) as H. split.
  - intros Htrue. destruct (connection w) as [conn|].
    + destruct (conn_cursor Database (trace w) (conn_handle conn) []) as [cursor|e] eqn:Hc.
      * exists conn, cursor. repeat split; [done|].
        rewrite H in Htrue. cbn [fst] in Htrue.
        destruct (cursor_execute _ _ _ _) as [[]|e]; [done|].
        destruct (is_Database_Error e); discriminate.
      * rewrite H in Htrue. cbn [fst] in Htrue.
        destruct (is_Database_Error e); discriminate.
    + destruct H as [msg H]. rewrite H in Htrue. discriminate.
  - intros (conn & cursor & Hconn & Hcursor & Hprobe).
    rewrite Hconn, Hcursor, Hprobe in H. by rewrite H.
Qed.

Lemma is_usable_true_iff_witness :
  fst (is_usable obliging_driver live_world) = Ok true.
Proof.
  apply (proj2 (is_usable_true_iff obliging_driver live_world)).
  exists {| conn_handle := 1; autocommit := false |}, 7.
  repeat split; reflexivity.
Defined.

(** X11: whatever the driver does, the events of [is_usable] are none at
    all, or the one request for a cursor (which then raised), or that
    request, the one statement 'SELECT current_version()' on the cursor
    obtained and the closing of that cursor.  So no other statement is ever
    executed, never more than one, and a cursor that was obtained is always
    closed, also when the statement raises. *)
Theorem is_usable_events (Database : Driver) (w : world) :
  emitted (is_usable Database) w = []
  ∨ (∃ conn, emitted (is_usable Database) w = [EvCursor conn []])
  ∨ (∃ conn cursor,
       emitted (is_usable Database) w
       = [EvCursor conn []; EvExecute cursor "SELECT current_version()";
          EvCursorClose cursor]).
Proof.
  pose proof (is_usable_cases Database w) as H.
  destruct (connection w) as [conn|].
  - destruct (conn_cursor Database (trace w) (conn_handle conn) []) as [cursor|e].
    + right. right. exists (conn_handle conn), cursor.
      apply emitted_log. by rewrite H.
    + right. left. exists (conn_handle conn). apply emitted_log. by rewrite H.
  - left. destruct H as [msg H]. apply emitted_log. by rewrite H, log_nil.
Qed.

(** X12: [is_usable] absorbs driver errors only.  If the request for a
    cursor raises a driver error it answers false without executing any
    statement; if the statement raises an exception that is not a driver
    error, that exception leaves [is_usable] unchanged, after the cursor
    has been closed. *)
Theorem is_usable_absorbs_driver_errors_only
    (Database : Driver) (w : world) (conn : connection_obj) :
  connection w = Some conn →
  (∀ msg,
     conn_cursor Database (trace w) (conn_handle conn) []
       = Raise (Database_Error msg) →
     is_usable Database w = (Ok false, log [EvCursor (conn_handle conn) []] w))
  ∧ (∀ cursor e,
       conn_cursor Database (trace w) (conn_handle conn) [] = Ok cursor →
       cursor_execute Database (trace w ++ [EvCursor (conn_handle conn) []])
                      cursor "SELECT current_version()" = Raise e →
       is_Database_Error e = false →
       is_usable Database w
       = (Raise e,
          log [EvCursor (conn_handle conn) [];
               EvExecute cursor "SELECT current_version()";
               EvCursorClose cursor] w)).
Proof.
  intros Hconn. pose proof (is_usable_cases Database w) as H.
  rewrite Hconn in H. split.
  - intros msg Hraise. by rewrite Hraise in H.
  - intros cursor e Hcursor Hprobe He. by rewrite Hcursor, Hprobe, He in H.
Qed.

Lemma is_usable_absorbs_driver_errors_only_witness :
  is_usable
    {| Database_connect := Database_connect stale_driver;
       conn_cursor := conn_cursor stale_driver;
       conn_set_autocommit := conn_set_autocommit stale_driver;
       cursor_execute := fun _ _ _ => Raise (OtherException "KeyboardInterrupt");
       cursor_copy_expert := cursor_copy_expert stale_driver;
       cursor_copy_to := cursor_copy_to stale_driver |}
    live_world
  = (Raise (OtherException "KeyboardInterrupt"),
     log [EvCursor 1 []; EvExecute 7 "SELECT current_version()"; EvCursorClose 7]
         live_world).
Proof.
  apply (proj2 (is_usable_absorbs_driver_errors_only
                  {| Database_connect := Database_connect stale_driver;
                     conn_cursor := conn_cursor stale_driver;
                     conn_set_autocommit := conn_set_autocommit stale_driver;
                     cursor_execute := fun _ _ _ => Raise (OtherException "KeyboardInterrupt");
                     cursor_copy_expert := cursor_copy_expert stale_driver;
                     cursor_copy_to := cursor_copy_to stale_driver |}
                  live_world {| conn_handle := 1; autocommit := false |} eq_refl)
               7 (OtherException "KeyboardInterrupt"));
    reflexivity.
Defined.

(** X13: every method but [_set_autocommit] leaves the wrapper as it found
    it, on every path: [get_connection_params], [get_new_connection],
    [create_cursor], [is_usable], [copy_expert] and [copy_to] change neither
    the settings nor the connection object (so not its autocommit
    attribute), and only add to the trace.  [_set_autocommit] keeps the
    settings and the identity of the connection. *)
Theorem only_set_autocommit_changes_the_wrapper (Database : Driver) (w : world) :
  wrapper_kept w (snd (get_connection_params w))
  ∧ (∀ conn_params, wrapper_kept w (snd (get_new_connection Database conn_params w)))
  ∧ (∀ name, wrapper_kept w (snd (create_cursor Database name w)))
  ∧ wrapper_kept w (snd (is_usable Database w))
  ∧ (∀ cur sql file args,
       wrapper_kept w (snd (copy_expert Database cur sql file args w)))
  ∧ (∀ cur file table args kwargs,
       wrapper_kept w (snd (copy_to Database cur file table args kwargs w)))
  ∧ (∀ b, settings_dict (snd (_set_autocommit Database b w)) = settings_dict w
          ∧ conn_handle <$> connection (snd (_set_autocommit Database b w))
            = conn_handle <$> connection w).
Proof.
  refine (conj _ (conj _ (conj _ (conj _ (conj _ (conj _ _)))))).
  - rewrite get_connection_params_spec.
    destruct (first_failing _ _); apply wrapper_kept_log.
  - intros conn_params. unfold get_new_connection, async_unsafe, bind, call, ret.
    destruct (in_event_loop w); [rewrite <- (log_nil w) at 2; apply wrapper_kept_log|].
    destruct (Database_connect _ _ _); apply wrapper_kept_log.
  - intros name. unfold create_cursor, async_unsafe, bind, self_connection, call, ret.
    destruct (in_event_loop w); [rewrite <- (log_nil w) at 2; apply wrapper_kept_log|].
    destruct (connection w); [|rewrite <- (log_nil w) at 2; apply wrapper_kept_log].
    destruct (conn_cursor _ _ _ _); apply wrapper_kept_log.
  - pose proof (is_usable_cases Database w) as H.
    destruct (connection w) as [conn|].
    + destruct (conn_cursor _ _ _ _); rewrite H; apply wrapper_kept_log.
    + destruct H as [msg ->]. rewrite <- (log_nil w) at 2. apply wrapper_kept_log.
  - intros. unfold copy_expert, debug_sql, call. cbn [snd trace log].
    rewrite !log_log. apply wrapper_kept_log.
  - intros. unfold copy_to, debug_sql, call. cbn [snd trace log].
    rewrite !log_log. apply wrapper_kept_log.
  - intros b. unfold _set_autocommit, wrap_database_errors, connection_set_autocommit.
    unfold bind, self_connection.
    destruct (connection w) as [conn|] eqn:Hconn; cbn; [|by rewrite ?Hconn].
    destruct (conn_set_autocommit _ _ _ _) as [e|]; cbn; [|by rewrite ?Hconn].
    destruct e; cbn; by rewrite ?Hconn.
Qed.

(** ** Further properties of the debug cursor wrapper *)

(** A balanced stretch of trace can be skipped. *)
Lemma scopes_balanced_app (a b : list event) :
  ∀ depth, scopes_balanced depth a = true →
           scopes_balanced depth (a ++ b) = scopes_balanced 0 b.
Proof.
  induction a as [|e a IH]; intros depth Ha.
  - cbn in Ha. apply bool_decide_eq_true in Ha as ->. done.
  - destruct e; cbn [scopes_balanced app] in *; try (by apply IH).
    destruct depth as [|d]; [discriminate|]. by apply IH.
Qed.

(** X14: the debug scopes stay balanced.  If every debug scope entered so
    far has been left, the same holds after [copy_expert] and after
    [copy_to], whether the wrapped cursor returns or raises: no call leaves
    a scope open and none closes a scope it did not open. *)
Theorem copy_keeps_debug_scopes_balanced
    (Database : Driver) (self_cursor : handle) (w : world) :
  scopes_balanced 0 (trace w) = true →
  (∀ sql file args,
     scopes_balanced 0
       (trace (snd (copy_expert Database self_cursor sql file args w))) = true)
  ∧ (∀ file table args kwargs,
       scopes_balanced 0
         (trace (snd (copy_to Database self_cursor file table args kwargs w))) = true).
Proof.
  intros Hw. split; intros;
    [unfold copy_expert|unfold copy_to];
    unfold debug_sql, call; cbn [snd trace log];
    rewrite <- !app_assoc; by rewrite scopes_balanced_app.
Qed.

Lemma copy_keeps_debug_scopes_balanced_witness :
  (∀ sql file args,
     scopes_balanced 0
       (trace (snd (copy_expert stale_driver 7 sql file args live_world))) = true)
  ∧ (∀ file table args kwargs,
       scopes_balanced 0
         (trace (snd (copy_to stale_driver 7 file table args kwargs live_world))) = true).
Proof.
  apply (copy_keeps_debug_scopes_balanced stale_driver 7 live_world).
  reflexivity.
Defined.

Lemma list_ascii_of_string_app (s1 s2 : string) :
  String.list_ascii_of_string (s1 ++ s2)
  = (String.list_ascii_of_string s1 ++ String.list_ascii_of_string s2)%list.
Proof. induction s1 as [|a s1 IH]; [done|]. simpl. by f_equal. Qed.

Lemma string_app_inv_tail (s1 s2 t : string) : s1 ++ t = s2 ++ t → s1 = s2.
Proof.
  intros H. apply (f_equal String.list_ascii_of_string) in H.
  rewrite !list_ascii_of_string_app in H. apply app_inv_tail in H.
  apply (f_equal String.string_of_list_ascii) in H.
  by rewrite !String.string_of_list_ascii_of_string in H.
Qed.

(** X15: the description under which [copy_to] is logged determines the
    table: two calls of [copy_to], on whatever cursors, files, arguments and
    states, end with the same debug event only if they name the same
    table. *)
Theorem copy_to_description_identifies_table
    (Database1 Database2 : Driver) (cur1 cur2 file1 file2 : handle)
    (table1 table2 : string) (args1 args2 : list pyval)
    (kwargs1 kwargs2 : list (string * pyval)) (w1 w2 : world) :
  last (trace (snd (copy_to Database1 cur1 file1 table1 args1 kwargs1 w1)))
  = last (trace (snd (copy_to Database2 cur2 file2 table2 args2 kwargs2 w2))) →
  table1 = table2.
Proof.
  unfold copy_to, debug_sql, call. cbn [snd trace log].
  rewrite !last_snoc. intros H. injection H as H.
  apply (string_app_inv_tail table1 table2 " TO STDOUT"). exact H.
Qed.

Lemma copy_to_description_identifies_table_witness : "events" = "events".
Proof.
  apply (copy_to_description_identifies_table
           obliging_driver stale_driver 7 8 3 4 "events" "events"
           [] [PyStr ","] [] [] live_world (world_of settings_full)).
  reflexivity.
Defined.

(** ** The class-level tables *)

(** X16: every lookup that has a pattern in [pattern_ops] also has an
    operator in [operators], and both are LIKE comparisons. *)
Theorem pattern_ops_have_like_operators (lookup pattern : string) :
  pattern_ops !! lookup = Some pattern →
  String.prefix "LIKE " pattern = true
  ∧ ∃ op, operators !! lookup = Some op ∧ String.prefix "LIKE " op = true.
Proof.
  revert lookup pattern. apply map_Forall_lookup.
  unfold pattern_ops. cbn [list_to_map foldr uncurry].
  repeat (apply map_Forall_insert_2;
          [split; [reflexivity|eexists; split; reflexivity]|]).
  apply map_Forall_empty.
Qed.

Lemma pattern_ops_have_like_operators_witness :
  String.prefix "LIKE " "LIKE UPPER({}) || '%%'" = true
  ∧ ∃ op, operators !! "istartswith" = Some op ∧ String.prefix "LIKE " op = true.
Proof.
  apply (pattern_ops_have_like_operators "istartswith" "LIKE UPPER({}) || '%%'").
  reflexivity.
Defined.

(** X17: every field kind that has a check constraint in
    [data_type_check_constraints] has a column type in [data_types], that
    type is one of smallint, integer and bigint, and the constraint is the
    one that keeps the column from being negative. *)
Theorem check_constraints_are_on_integer_columns (kind constraint : string) :
  data_type_check_constraints !! kind = Some constraint →
  constraint = column_not_negative
  ∧ ∃ column_type, data_types !! kind = Some column_type
                   ∧ integer_column_type column_type = true.
Proof.
  revert kind constraint. apply map_Forall_lookup.
  unfold data_type_check_constraints. cbn [list_to_map foldr uncurry].
  repeat (apply map_Forall_insert_2;
          [split; [reflexivity|eexists; split; reflexivity]|]).
  apply map_Forall_empty.
Qed.

Lemma check_constraints_are_on_integer_columns_witness :
  column_not_negative = column_not_negative
  ∧ ∃ column_type, data_types !! "PositiveBigIntegerField" = Some column_type
                   ∧ integer_column_type column_type = true.
Proof.
  apply (check_constraints_are_on_integer_columns
           "PositiveBigIntegerField" column_not_negative).
  reflexivity.
Defined.
